(** * SASLprep (packages/saslprep/src/index.ts)

    A shallow embedding of [toCodePoints] and [saslprep] and the properties
    of the preparation pipeline: decoding, mapping, normalisation, the
    prohibited / unassigned checks and the bidirectional checks.

    A JavaScript string is the list of its UTF-16 code units, a code unit
    and a code point are integers ([Z]).  The six classification tables and
    the NFKC primitive are not part of the file: the tables are a record of
    membership tests (the [get] of each table), NFKC is a parameter of the
    pipeline.  [saslprep] follows ECMAScript, where a call takes any number
    of arguments; [saslprep_engine] is the same function in an engine that
    limits the number of arguments of [String.fromCodePoint.apply]. *)

From Stdlib Require Import ZArith List Bool Lia.
Import ListNotations.
Open Scope Z_scope.

(** ** Outcomes: a returned value or a thrown exception *)

Inductive error : Type :=
| InvalidInputType       (* TypeError('Expected string.') *)
| ProhibitedCharacter    (* Error('Prohibited character, ...') *)
| UnassignedCodePoint    (* Error('Unassigned code point, ...') *)
| BidiMixedDirection     (* Error('String must not contain RandALCat and LCat ...') *)
| BidiEdgePlacement      (* Error('Bidirectional RandALCat character must be the first and the last ...') *)
| RuntimeTypeError       (* TypeError of the engine: a property read on undefined *)
| RangeError.            (* RangeError of String.fromCodePoint *)

Inductive result (A : Type) : Type :=
| Ok (a : A)
| Throw (e : error).

Arguments Ok {A} a.
Arguments Throw {A} e.

Definition bind {A B : Type} (r : result A) (k : A -> result B) : result B :=
  match r with
  | Ok a => k a
  | Throw e => Throw e
  end.

Notation "x <- r ;; k" := (bind r (fun x => k))
  (at level 61, r at next level, right associativity).

(** ** JavaScript strings and the built-ins the source calls *)

Definition js_string := list Z.

Definition is_code_unit (u : Z) : Prop := 0 <= u <= 0xFFFF.

(** Every JavaScript string is a sequence of 16-bit code units. *)
Definition utf16 (s : js_string) : Prop := Forall is_code_unit s.

(** [input.charCodeAt(i)]; [None] stands for the NaN of an index out of range. *)
Definition charCodeAt (input : js_string) (i : nat) : option Z := nth_error input i.

(** One argument of [String.fromCodePoint]: a RangeError outside
    0..0x10FFFF, one unit up to 0xFFFF, a surrogate pair above. *)
Definition fromCodePoint1 (cp : Z) : result js_string :=
  if (cp <? 0) || (0x10FFFF <? cp) then Throw RangeError
  else if cp <=? 0xFFFF then Ok [cp]
  else Ok [Z.shiftr (cp - 0x10000) 10 + 0xD800; (cp - 0x10000) mod 0x400 + 0xDC00].

(** [String.fromCodePoint] on the list of its arguments, as ECMAScript
    defines it: any number of arguments.  What an engine does with a call
    of too many arguments is [fromCodePoint_apply], below. *)
Fixpoint fromCodePoint (cps : list Z) : result js_string :=
  match cps with
  | [] => Ok []
  | cp :: rest =>
      s <- fromCodePoint1 cp ;;
      t <- fromCodePoint rest ;;
      Ok (s ++ t)
  end.

(** [String.fromCodePoint.apply(null, cps)] in an engine that takes at most
    [max_arguments] arguments in one call: [apply] spreads the array into
    arguments, and the engine answers a longer array with a RangeError
    (its call stack is exceeded). *)
Definition fromCodePoint_apply (max_arguments : nat) (cps : list Z) : result js_string :=
  if (max_arguments <? length cps)%nat then Throw RangeError
  else fromCodePoint cps.

(** ** utils *)

(** [first(x) = x[0]] and [last(x) = x[x.length - 1]]: [None] is the
    [undefined] of an index without a value.  saslprep calls them on
    strings only, and it is strings that they are meant for here: on a
    string the value is the one-unit string at that index, kept as its code
    unit, and it is [undefined] only when the index is out of range.  (An
    array can hold [undefined] as an element; that is not told apart.) *)
Definition first {T : Type} (x : list T) : option T := nth_error x 0.

Definition last {T : Type} (x : list T) : option T :=
  match length x with
  | O => None                       (* x[-1] *)
  | S n => nth_error x n
  end.

(** [getCodePoint(character) = character.codePointAt(0)].  Reading
    [codePointAt] on [undefined] throws a TypeError; on a one-unit string,
    [codePointAt(0)] is that unit. *)
Definition getCodePoint (character : option Z) : result Z :=
  match character with
  | None => Throw RuntimeTypeError
  | Some unit => Ok unit
  end.

(** ** toCodePoints *)

Definition is_high_surrogate (u : Z) : bool := (0xd800 <=? u) && (u <=? 0xdbff).
Definition is_low_surrogate (u : Z) : bool := (0xdc00 <=? u) && (u <=? 0xdfff).

(** The [for (let i = 0; i < size; i += 1)] loop; [fuel] bounds the number
    of iterations, [codepoints] is the array being pushed to. *)
Fixpoint toCodePoints_loop (fuel : nat) (input : js_string) (size i : nat)
    (codepoints : list Z) : list Z :=
  match fuel with
  | O => codepoints
  | S fuel' =>
      if (i <? size)%nat then
        match charCodeAt input i with
        | None => codepoints            (* NaN: not read, as i < size *)
        | Some before =>
            if is_high_surrogate before && (i + 1 <? size)%nat then
              match charCodeAt input (i + 1) with
              | Some next =>
                  if is_low_surrogate next then
                    toCodePoints_loop fuel' input size (i + 2)
                      (codepoints ++ [(before - 0xd800) * 0x400 + next - 0xdc00 + 0x10000])
                  else
                    toCodePoints_loop fuel' input size (i + 1) (codepoints ++ [before])
              | None =>
                  toCodePoints_loop fuel' input size (i + 1) (codepoints ++ [before])
              end
            else
              toCodePoints_loop fuel' input size (i + 1) (codepoints ++ [before])
        end
      else codepoints
  end.

(** Every iteration advances [i], so [input.length] iterations are enough. *)
Definition toCodePoints (input : js_string) : list Z :=
  toCodePoints_loop (length input) input (length input) 0 [].

(** The decoder as the specification words it: a left-to-right scan that
    joins a high surrogate with a following low surrogate and passes every
    other unit through. *)
Fixpoint decode (s : js_string) : list Z :=
  match s with
  | [] => []
  | unit :: rest =>
      match rest with
      | low :: rest' =>
          if is_high_surrogate unit && is_low_surrogate low
          then ((unit - 0xD800) * 0x400 + (low - 0xDC00) + 0x10000) :: decode rest'
          else unit :: decode rest
      | [] => [unit]
      end
  end.

(** ** The arguments of saslprep *)

(** The six tables of [createMemoryCodePoints]: each is read only through
    its [get], a membership test on code points. *)
Record code_points : Type := {
  unassigned_code_points : Z -> bool;
  commonly_mapped_to_nothing : Z -> bool;
  non_ASCII_space_characters : Z -> bool;
  prohibited_characters : Z -> bool;
  bidirectional_r_al : Z -> bool;
  bidirectional_l : Z -> bool
}.

(** [opts: { allowUnassigned?: boolean }]; [None] is the absent field. *)
Record options : Type := { allowUnassigned : option bool }.

(** [opts = {}] *)
Definition default_options : options := {| allowUnassigned := None |}.

(** What a caller can pass as [input]: a string, or anything else. *)
Inductive js_value : Type :=
| JsString (s : js_string)
| JsOther.

(** [opts.allowUnassigned !== true] *)
Definition allowUnassigned_not_true (opts : options) : bool :=
  match allowUnassigned opts with
  | Some true => false
  | _ => true
  end.

(** ** saslprep *)

Section Pipeline.

(** [s.normalize('NFKC')], the engine's normalisation primitive. *)
Variable normalize_NFKC : js_string -> js_string.

Definition saslprep (tables : code_points) (input : js_value) (opts : options)
  : result js_string :=
  let mapping2space := non_ASCII_space_characters tables in
  let mapping2nothing := commonly_mapped_to_nothing tables in
  match input with
  | JsOther => Throw InvalidInputType
  | JsString input =>
      if (length input =? 0)%nat then Ok []
      else
        (* 1. Map *)
        let mapped_input :=
          filter (fun character => negb (mapping2nothing character))
            (map (fun character => if mapping2space character then 0x20 else character)
               (toCodePoints input)) in
        (* 2. Normalize *)
        str <- fromCodePoint mapped_input ;;
        let normalized_input := normalize_NFKC str in
        let normalized_map := toCodePoints normalized_input in
        (* 3. Prohibit *)
        let hasProhibited := existsb (prohibited_characters tables) normalized_map in
        if hasProhibited then Throw ProhibitedCharacter
        else
          (* Unassigned Code Points *)
          _ <- (if allowUnassigned_not_true opts then
                  let hasUnassigned :=
                    existsb (unassigned_code_points tables) normalized_map in
                  if hasUnassigned then Throw UnassignedCodePoint else Ok tt
                else Ok tt) ;;
          (* 4. check bidi *)
          let hasBidiRAL := existsb (bidirectional_r_al tables) normalized_map in
          let hasBidiL := existsb (bidirectional_l tables) normalized_map in
          if hasBidiRAL && hasBidiL then Throw BidiMixedDirection
          else
            first_code_point <- getCodePoint (first normalized_input) ;;
            let isFirstBidiRAL := bidirectional_r_al tables first_code_point in
            last_code_point <- getCodePoint (last normalized_input) ;;
            let isLastBidiRAL := bidirectional_r_al tables last_code_point in
            if hasBidiRAL && negb (isFirstBidiRAL && isLastBidiRAL)
            then Throw BidiEdgePlacement
            else Ok normalized_input
  end.

(** *** The intermediate values of saslprep, named for the statements *)

(** 1.1 mapping to space *)
Definition mapping2space_step (tables : code_points) (cps : list Z) : list Z :=
  map (fun character =>
         if non_ASCII_space_characters tables character then 0x20 else character) cps.

(** 1.2 mapping to nothing *)
Definition mapping2nothing_step (tables : code_points) (cps : list Z) : list Z :=
  filter (fun character => negb (commonly_mapped_to_nothing tables character)) cps.

Definition mapped_input (tables : code_points) (input : js_string) : list Z :=
  mapping2nothing_step tables (mapping2space_step tables (toCodePoints input)).

Definition normalized_input (tables : code_points) (input : js_string)
  : result js_string :=
  str <- fromCodePoint (mapped_input tables input) ;;
  Ok (normalize_NFKC str).

(** The first and the last code unit of the normalized string are both in
    the bidi-R-AL table: [isFirstBidiRAL && isLastBidiRAL]. *)
Definition first_last_units_RAL (tables : code_points) (normalized : js_string) : bool :=
  match first normalized, last normalized with
  | Some f, Some l => bidirectional_r_al tables f && bidirectional_r_al tables l
  | _, _ => false
  end.

(** The checks of saslprep on a normalized string, steps 3 and 4. *)
Definition checks (tables : code_points) (opts : options) (normalized : js_string)
  : result js_string :=
  let normalized_map := toCodePoints normalized in
  if existsb (prohibited_characters tables) normalized_map then Throw ProhibitedCharacter
  else if allowUnassigned_not_true opts
          && existsb (unassigned_code_points tables) normalized_map
  then Throw UnassignedCodePoint
  else if existsb (bidirectional_r_al tables) normalized_map
          && existsb (bidirectional_l tables) normalized_map
  then Throw BidiMixedDirection
  else match first normalized, last normalized with
       | None, _ | _, None => Throw RuntimeTypeError
       | Some _, Some _ =>
           if existsb (bidirectional_r_al tables) normalized_map
              && negb (first_last_units_RAL tables normalized)
           then Throw BidiEdgePlacement
           else Ok normalized
       end.

End Pipeline.

(** *** saslprep in an engine with a limit on the number of arguments

    [saslprep] above runs [String.fromCodePoint.apply] as ECMAScript defines
    it.  [saslprep_engine] is the same function, line by line, in an engine
    that takes at most [max_arguments] arguments in one call. *)

Section Engine.

Variable max_arguments : nat.
Variable normalize_NFKC : js_string -> js_string.

Definition saslprep_engine (tables : code_points) (input : js_value) (opts : options)
  : result js_string :=
  let mapping2space := non_ASCII_space_characters tables in
  let mapping2nothing := commonly_mapped_to_nothing tables in
  match input with
  | JsOther => Throw InvalidInputType
  | JsString input =>
      if (length input =? 0)%nat then Ok []
      else
        (* 1. Map *)
        let mapped_input :=
          filter (fun character => negb (mapping2nothing character))
            (map (fun character => if mapping2space character then 0x20 else character)
               (toCodePoints input)) in
        (* 2. Normalize *)
        str <- fromCodePoint_apply max_arguments mapped_input ;;
        let normalized_input := normalize_NFKC str in
        let normalized_map := toCodePoints normalized_input in
        (* 3. Prohibit *)
        let hasProhibited := existsb (prohibited_characters tables) normalized_map in
        if hasProhibited then Throw ProhibitedCharacter
        else
          (* Unassigned Code Points *)
          _ <- (if allowUnassigned_not_true opts then
                  let hasUnassigned :=
                    existsb (unassigned_code_points tables) normalized_map in
                  if hasUnassigned then Throw UnassignedCodePoint else Ok tt
                else Ok tt) ;;
          (* 4. check bidi *)
          let hasBidiRAL := existsb (bidirectional_r_al tables) normalized_map in
          let hasBidiL := existsb (bidirectional_l tables) normalized_map in
          if hasBidiRAL && hasBidiL then Throw BidiMixedDirection
          else
            first_code_point <- getCodePoint (first normalized_input) ;;
            let isFirstBidiRAL := bidirectional_r_al tables first_code_point in
            last_code_point <- getCodePoint (last normalized_input) ;;
            let isLastBidiRAL := bidirectional_r_al tables last_code_point in
            if hasBidiRAL && negb (isFirstBidiRAL && isLastBidiRAL)
            then Throw BidiEdgePlacement
            else Ok normalized_input
  end.

End Engine.

(** What the mapping step makes of one decoded code point, in the words of
    the specification: the space test reads the decoded value, the
    map-to-nothing test reads the substituted value. *)
Definition map_code_point (tables : code_points) (decoded : Z) : list Z :=
  let substituted :=
    if non_ASCII_space_characters tables decoded then 0x20 else decoded in
  if commonly_mapped_to_nothing tables substituted then [] else [substituted].

(** Closes [utf16 s] for a string written out. *)
Ltac code_units := repeat constructor; unfold is_code_unit; lia.

(** The five error kinds a caller is told about. *)
Definition enumerated_error (e : error) : bool :=
  match e with
  | InvalidInputType | ProhibitedCharacter | UnassignedCodePoint
  | BidiMixedDirection | BidiEdgePlacement => true
  | RuntimeTypeError | RangeError => false
  end.

Definition is_code_point (c : Z) : Prop := 0 <= c <= 0x10FFFF.

(** The first and the last entry of a code-point sequence are both in the
    bidi-R-AL table. *)
Definition first_last_code_points_RAL (tables : code_points) (cps : list Z) : bool :=
  match first cps, last cps with
  | Some f, Some l => bidirectional_r_al tables f && bidirectional_r_al tables l
  | _, _ => false
  end.

(** ** Tables and a normalizer for the worked examples *)

Definition in_table (members : list Z) (c : Z) : bool := existsb (Z.eqb c) members.

Definition table_of (unassigned nothing space prohibited ral l : list Z) : code_points :=
  {| unassigned_code_points := in_table unassigned;
     commonly_mapped_to_nothing := in_table nothing;
     non_ASCII_space_characters := in_table space;
     prohibited_characters := in_table prohibited;
     bidirectional_r_al := in_table ral;
     bidirectional_l := in_table l |}.

(** The same tables with an empty unassigned table. *)
Definition without_unassigned (tables : code_points) : code_points :=
  {| unassigned_code_points := fun _ => false;
     commonly_mapped_to_nothing := commonly_mapped_to_nothing tables;
     non_ASCII_space_characters := non_ASCII_space_characters tables;
     prohibited_characters := prohibited_characters tables;
     bidirectional_r_al := bidirectional_r_al tables;
     bidirectional_l := bidirectional_l tables |}.

(** NFKC on the strings of the examples: U+FF21 FULLWIDTH LATIN CAPITAL
    LETTER A has the compatibility decomposition U+0041, U+00A0 NO-BREAK
    SPACE has U+0020; the other example strings are made of code points
    without a decomposition, which NFKC leaves as they are. *)
Definition nfkc_known : list (Z * Z) := [(0xFF21, 0x41); (0xA0, 0x20)].

Definition nfkc_examples (s : js_string) : js_string :=
  map (fun unit =>
         match find (fun kv => fst kv =? unit) nfkc_known with
         | Some kv => snd kv
         | None => unit
         end) s.

(** A soft hyphen (U+00AD) table of commonly-mapped-to-nothing code points,
    a no-break space (U+00A0) table of non-ASCII spaces, U+0000 prohibited,
    U+0378 unassigned, Hebrew alef (U+05D0) and the Cypriot syllable A
    (U+10800) right-to-left, the Latin letter z left-to-right. *)
Definition example_tables : code_points :=
  table_of [0x378] [0xAD] [0xA0] [0x0] [0x5D0; 0x10800] [0x7A].

(** Tables whose bidi-R-AL table holds a high surrogate unit (U+D800) and
    Hebrew alef. *)
Definition tables_surrogate_RAL : code_points :=
  table_of [] [] [] [] [0xD800; 0x5D0] [].

(** Tables whose commonly-mapped-to-nothing table holds the soft hyphen and
    U+10000. *)
Definition tables_U10000_to_nothing : code_points :=
  table_of [] [0xAD; 0x10000] [] [] [] [].


(** ** Predicates for the statements about the decoder and the outcomes *)

(** No high surrogate is directly followed by a low surrogate. *)
Fixpoint no_surrogate_pair (cps : list Z) : bool :=
  match cps with
  | [] => true
  | c :: rest =>
      match rest with
      | d :: _ =>
          negb (is_high_surrogate c && is_low_surrogate d) && no_surrogate_pair rest
      | [] => true
      end
  end.

(** The last unit of [s] and the first unit of [t] are a surrogate pair. *)
Definition boundary_pair (s t : js_string) : bool :=
  match last s, first t with
  | Some h, Some l => is_high_surrogate h && is_low_surrogate l
  | _, _ => false
  end.

(** A code point that the mapping step keeps as it is and that none of the
    checks objects to: outside the map-to-nothing, non-ASCII-space,
    prohibited, unassigned and bidi-R-AL tables. *)
Definition plain_code_point (tables : code_points) (c : Z) : bool :=
  negb (commonly_mapped_to_nothing tables c
        || non_ASCII_space_characters tables c
        || prohibited_characters tables c
        || unassigned_code_points tables c
        || bidirectional_r_al tables c).

(** What the normalized string [n] must look like for saslprep to throw [e]. *)
Definition error_cause (tables : code_points) (opts : options) (n : js_string)
    (e : error) : bool :=
  let cps := toCodePoints n in
  let prohibited := existsb (prohibited_characters tables) cps in
  let unassigned :=
    allowUnassigned_not_true opts && existsb (unassigned_code_points tables) cps in
  let ral := existsb (bidirectional_r_al tables) cps in
  let l := existsb (bidirectional_l tables) cps in
  match e with
  | ProhibitedCharacter => prohibited
  | UnassignedCodePoint => negb prohibited && unassigned
  | BidiMixedDirection => negb prohibited && negb unassigned && ral && l
  | BidiEdgePlacement =>
      negb prohibited && negb unassigned && ral && negb l
      && negb (first_last_units_RAL tables n)
  | RuntimeTypeError => match n with [] => true | _ :: _ => false end
  | InvalidInputType | RangeError => false
  end.

(** ** The decoder *)

Section Decoder.

Lemma charCodeAt_app (pre s : js_string) :
  charCodeAt (pre ++ s) (length pre) = nth_error s 0.
Proof.
  unfold charCodeAt. rewrite nth_error_app2 by lia.
  now rewrite Nat.sub_diag.
Qed.

Lemma charCodeAt_app_next (pre : js_string) (u : Z) (s : js_string) :
  charCodeAt (pre ++ u :: s) (length pre + 1) = nth_error s 0.
Proof.
  unfold charCodeAt. rewrite nth_error_app2 by lia.
  replace (length pre + 1 - length pre)%nat with 1%nat by lia.
  reflexivity.
Qed.

(** The loop started at index [length pre] of [pre ++ s] appends the
    decoding of [s], as soon as the fuel covers [s]. *)
Lemma toCodePoints_loop_decode (fuel : nat) :
  forall (pre s : js_string) (codepoints : list Z),
    (length s <= fuel)%nat ->
    toCodePoints_loop fuel (pre ++ s) (length (pre ++ s)) (length pre) codepoints
    = codepoints ++ decode s.
Proof.
  induction fuel as [|fuel IH]; intros pre s codepoints Hfuel.
  - destruct s; simpl in Hfuel; [|lia]. simpl. now rewrite app_nil_r.
  - destruct s as [|u rest].
    + simpl. rewrite app_nil_r, Nat.ltb_irrefl. now rewrite app_nil_r.
    + cbn [toCodePoints_loop].
      assert (Hlt : (length pre <? length (pre ++ u :: rest))%nat = true).
      { apply Nat.ltb_lt. rewrite length_app. simpl. lia. }
      rewrite Hlt, charCodeAt_app. cbn [nth_error].
      simpl in Hfuel.
      assert (Hstep : forall c,
                 toCodePoints_loop fuel (pre ++ u :: rest)
                   (length (pre ++ u :: rest)) (length pre + 1) (codepoints ++ [c])
                 = codepoints ++ c :: decode rest).
      { intros c.
        replace (pre ++ u :: rest) with ((pre ++ [u]) ++ rest)
          by (rewrite <- app_assoc; reflexivity).
        replace (length pre + 1)%nat with (length (pre ++ [u]))
          by (rewrite length_app; reflexivity).
        rewrite IH by lia. rewrite <- app_assoc. reflexivity. }
      destruct rest as [|l rest'].
      * assert (Hsz : (length pre + 1 <? length (pre ++ [u]))%nat = false).
        { apply Nat.ltb_ge. rewrite length_app. simpl. lia. }
        rewrite Hsz, andb_false_r. rewrite Hstep. reflexivity.
      * assert (Hsz : (length pre + 1 <? length (pre ++ u :: l :: rest'))%nat = true).
        { apply Nat.ltb_lt. rewrite length_app. simpl. lia. }
        rewrite Hsz, andb_true_r, charCodeAt_app_next. cbn [nth_error decode].
        destruct (is_high_surrogate u) eqn:Hu; cbn [andb].
        -- destruct (is_low_surrogate l) eqn:Hl.
           ++ replace (pre ++ u :: l :: rest') with ((pre ++ [u; l]) ++ rest')
                by (rewrite <- app_assoc; reflexivity).
              replace (length pre + 2)%nat with (length (pre ++ [u; l]))
                by (rewrite length_app; reflexivity).
              simpl in Hfuel. rewrite IH by lia.
              rewrite <- app_assoc. cbn [app].
              do 2 f_equal. lia.
           ++ apply Hstep.
        -- apply Hstep.
Qed.

Lemma toCodePoints_decode (input : js_string) :
  toCodePoints input = decode input.
Proof.
  unfold toCodePoints.
  exact (toCodePoints_loop_decode (length input) [] input [] (le_n _)).
Qed.

End Decoder.

(** C4: the decoder scans the code units from left to right; a high
    surrogate followed by a low surrogate gives the one scalar
    (high - 0xD800) * 0x400 + (low - 0xDC00) + 0x10000 and the scan moves on
    two positions, every other unit (a lone surrogate too) is passed through
    and the scan moves on one position; the empty string gives the empty
    sequence, and the decoder is a total function. *)
Theorem toCodePoints_scan :
  toCodePoints [] = []
  /\ (forall (unit : Z) (rest : js_string),
         toCodePoints (unit :: rest) =
         match rest with
         | low :: rest' =>
             if is_high_surrogate unit && is_low_surrogate low
             then ((unit - 0xD800) * 0x400 + (low - 0xDC00) + 0x10000) :: toCodePoints rest'
             else unit :: toCodePoints rest
         | [] => [unit]
         end)
  /\ (forall input : js_string, toCodePoints input = decode input).
Proof.
  split; [reflexivity|]. split.
  - intros unit rest. rewrite !toCodePoints_decode.
    destruct rest as [|low rest']; [reflexivity|].
    rewrite !toCodePoints_decode. reflexivity.
  - exact toCodePoints_decode.
Qed.

(** ** Code points and code units *)

Section Encoding.

Lemma surrogates_code_units (h l : Z) :
  is_high_surrogate h = true -> is_low_surrogate l = true ->
  0xD800 <= h <= 0xDBFF /\ 0xDC00 <= l <= 0xDFFF.
Proof.
  unfold is_high_surrogate, is_low_surrogate.
  rewrite !andb_true_iff, !Z.leb_le. lia.
Qed.

(** A list induction that follows the two-unit steps of the decoder. *)
Lemma js_string_pair_ind (P : js_string -> Prop) :
  P [] ->
  (forall u, P [u]) ->
  (forall u l rest, P rest -> P (l :: rest) -> P (u :: l :: rest)) ->
  forall s, P s.
Proof.
  intros Hnil Hone Hstep s.
  assert (H : P s /\ forall u, P (u :: s)).
  { induction s as [|l rest [IH1 IH2]].
    - split; [exact Hnil | exact Hone].
    - split; [apply IH2 | intros u; apply Hstep; [exact IH1 | apply IH2]]. }
  exact (proj1 H).
Qed.

Lemma decode_pair (u l : Z) (rest : js_string) :
  decode (u :: l :: rest) =
  if is_high_surrogate u && is_low_surrogate l
  then ((u - 0xD800) * 0x400 + (l - 0xDC00) + 0x10000) :: decode rest
  else u :: decode (l :: rest).
Proof. reflexivity. Qed.

Lemma decode_code_points (s : js_string) :
  utf16 s -> Forall is_code_point (decode s).
Proof.
  induction s as [|u|u l rest IH1 IH2] using js_string_pair_ind; intros Hs.
  - constructor.
  - inversion Hs as [|? ? Hu _]; subst. constructor; [|constructor].
    unfold is_code_unit, is_code_point in *. lia.
  - inversion Hs as [|? ? Hu Hs']; subst.
    inversion Hs' as [|? ? Hl Hrest]; subst.
    rewrite decode_pair.
    destruct (is_high_surrogate u && is_low_surrogate l) eqn:Hpair.
    + apply andb_true_iff in Hpair as [Hh Hlow].
      destruct (surrogates_code_units _ _ Hh Hlow).
      constructor; [unfold is_code_point; lia | auto].
    + constructor; [unfold is_code_unit, is_code_point in *; lia | auto].
Qed.

Lemma fromCodePoint1_unit (u : Z) :
  is_code_unit u -> fromCodePoint1 u = Ok [u].
Proof.
  unfold is_code_unit, fromCodePoint1. intros Hu.
  replace (u <? 0) with false by (symmetry; apply Z.ltb_ge; lia).
  replace (0x10FFFF <? u) with false by (symmetry; apply Z.ltb_ge; lia).
  replace (u <=? 0xFFFF) with true by (symmetry; apply Z.leb_le; lia).
  reflexivity.
Qed.

Lemma fromCodePoint1_pair (h l : Z) :
  is_high_surrogate h = true -> is_low_surrogate l = true ->
  fromCodePoint1 ((h - 0xD800) * 0x400 + (l - 0xDC00) + 0x10000) = Ok [h; l].
Proof.
  intros Hh Hl. destruct (surrogates_code_units _ _ Hh Hl) as [Hhr Hlr].
  unfold fromCodePoint1.
  set (cp := (h - 0xD800) * 0x400 + (l - 0xDC00) + 0x10000).
  replace (cp <? 0) with false by (symmetry; apply Z.ltb_ge; subst cp; lia).
  replace (0x10FFFF <? cp) with false by (symmetry; apply Z.ltb_ge; subst cp; lia).
  replace (cp <=? 0xFFFF) with false by (symmetry; apply Z.leb_gt; subst cp; lia).
  cbn [orb].
  replace (cp - 0x10000) with ((l - 0xDC00) + (h - 0xD800) * 0x400) by (subst cp; lia).
  rewrite Z.shiftr_div_pow2 by lia.
  change (2 ^ 10) with 0x400.
  rewrite Z.div_add by lia. rewrite Z.mod_add by lia.
  rewrite Z.div_small by lia. rewrite Z.mod_small by lia.
  do 2 f_equal; [lia | f_equal; lia].
Qed.

Lemma fromCodePoint1_total (cp : Z) :
  is_code_point cp -> exists s, fromCodePoint1 cp = Ok s.
Proof.
  unfold is_code_point, fromCodePoint1. intros Hcp.
  replace (cp <? 0) with false by (symmetry; apply Z.ltb_ge; lia).
  replace (0x10FFFF <? cp) with false by (symmetry; apply Z.ltb_ge; lia).
  cbn [orb]. destruct (cp <=? 0xFFFF); eauto.
Qed.

(** [String.fromCodePoint] does not throw on code points. *)
Lemma fromCodePoint_total (cps : list Z) :
  Forall is_code_point cps -> exists s, fromCodePoint cps = Ok s.
Proof.
  induction 1 as [|cp rest Hcp _ [t Ht]].
  - now exists [].
  - destruct (fromCodePoint1_total cp Hcp) as [s Hs].
    exists (s ++ t). cbn [fromCodePoint]. now rewrite Hs, Ht.
Qed.

(** Encoding the code points of a string gives the string back. *)
Lemma fromCodePoint_decode (s : js_string) :
  utf16 s -> fromCodePoint (decode s) = Ok s.
Proof.
  induction s as [|u|u l rest IH1 IH2] using js_string_pair_ind; intros Hs.
  - reflexivity.
  - inversion Hs; subst. cbn [decode fromCodePoint].
    now rewrite fromCodePoint1_unit.
  - inversion Hs as [|? ? Hu Hs']; subst.
    inversion Hs' as [|? ? Hl Hrest]; subst.
    rewrite decode_pair.
    destruct (is_high_surrogate u && is_low_surrogate l) eqn:Hpair.
    + apply andb_true_iff in Hpair as [Hh Hlow].
      cbn [fromCodePoint]. rewrite (fromCodePoint1_pair _ _ Hh Hlow).
      cbn [bind]. now rewrite (IH1 Hrest).
    + cbn [fromCodePoint]. rewrite (fromCodePoint1_unit _ Hu).
      cbn [bind]. now rewrite (IH2 Hs').
Qed.

Lemma fromCodePoint_toCodePoints (s : js_string) :
  utf16 s -> fromCodePoint (toCodePoints s) = Ok s.
Proof. rewrite toCodePoints_decode. apply fromCodePoint_decode. Qed.

End Encoding.

(** ** The pipeline *)

Section PipelineFacts.

Variable normalize_NFKC : js_string -> js_string.
Variable tables : code_points.

Lemma first_last_defined {T : Type} (x : list T) :
  x <> [] -> exists f l, first x = Some f /\ last x = Some l.
Proof.
  intros Hx. destruct x as [|f rest]; [congruence|].
  exists f. unfold last. cbn [length].
  destruct (nth_error (f :: rest) (length rest)) as [l|] eqn:Hl.
  - exists l. split; reflexivity.
  - apply nth_error_None in Hl. simpl in Hl. lia.
Qed.

(** saslprep on a string: the empty string at once, any other string
    through [normalized_input] and [checks]. *)
Lemma saslprep_checks (input : js_string) (opts : options) :
  saslprep normalize_NFKC tables (JsString input) opts =
  if (length input =? 0)%nat then Ok []
  else n <- normalized_input normalize_NFKC tables input ;; checks tables opts n.
Proof.
  unfold saslprep, normalized_input, mapped_input, mapping2nothing_step,
    mapping2space_step, checks, first_last_units_RAL.
  destruct (length input =? 0)%nat; [reflexivity|].
  destruct (fromCodePoint _) as [str|e]; [|reflexivity].
  cbn [bind].
  destruct (existsb (prohibited_characters tables) _); [reflexivity|].
  destruct (allowUnassigned_not_true opts); cbn [andb].
  - destruct (existsb (unassigned_code_points tables) _); [reflexivity|].
    cbn [bind].
    destruct (existsb (bidirectional_r_al tables) _ && existsb (bidirectional_l tables) _);
      [reflexivity|].
    destruct (first (normalize_NFKC str)); [|reflexivity].
    destruct (last (normalize_NFKC str)); reflexivity.
  - cbn [bind].
    destruct (existsb (bidirectional_r_al tables) _ && existsb (bidirectional_l tables) _);
      [reflexivity|].
    destruct (first (normalize_NFKC str)); [|reflexivity].
    destruct (last (normalize_NFKC str)); reflexivity.
Qed.

Lemma saslprep_nonempty (input : js_string) (opts : options) :
  input <> [] ->
  saslprep normalize_NFKC tables (JsString input) opts =
  n <- normalized_input normalize_NFKC tables input ;; checks tables opts n.
Proof.
  intros Hne. rewrite saslprep_checks.
  destruct input; [congruence | reflexivity].
Qed.

Lemma mapped_input_code_points (input : js_string) :
  utf16 input -> Forall is_code_point (mapped_input tables input).
Proof.
  intros Hin. unfold mapped_input, mapping2nothing_step, mapping2space_step.
  rewrite toCodePoints_decode.
  apply Forall_forall. intros c Hc.
  apply filter_In in Hc as [Hc _]. apply in_map_iff in Hc as [d [Hd Hdin]].
  pose proof (proj1 (Forall_forall _ _) (decode_code_points _ Hin) d Hdin) as Hcp.
  destruct (non_ASCII_space_characters tables d); subst c;
    [unfold is_code_point; lia | exact Hcp].
Qed.

(** Every string has a normalized string: the encoding step does not throw. *)
Lemma normalized_input_total (input : js_string) :
  utf16 input -> exists n, normalized_input normalize_NFKC tables input = Ok n.
Proof.
  intros Hin. unfold normalized_input.
  destruct (fromCodePoint_total _ (mapped_input_code_points _ Hin)) as [str Hstr].
  rewrite Hstr. cbn [bind]. eauto.
Qed.

(** A code point found by [some] makes the sequence, and so the string, non-empty. *)
Lemma existsb_toCodePoints_nonempty (p : Z -> bool) (s : js_string) :
  existsb p (toCodePoints s) = true -> s <> [].
Proof. intros H ->. discriminate H. Qed.

End PipelineFacts.

(** C5: in saslprep the mapping step replaces the members of the
    non-ASCII-space table by U+0020 first and drops the members of the
    commonly-mapped-to-nothing table afterwards: code point by code point,
    the space test reads the decoded value and the map-to-nothing test reads
    the value the substitution produced ([map_code_point]).  The sequence
    that saslprep encodes, normalizes and checks is the decoded input mapped
    in this way. *)
Theorem mapping_space_before_nothing (normalize_NFKC : js_string -> js_string)
    (tables : code_points) :
  (forall cps : list Z,
      mapping2nothing_step tables (mapping2space_step tables cps)
      = flat_map (map_code_point tables) cps)
  /\ (forall input : js_string,
         mapped_input tables input
         = flat_map (map_code_point tables) (toCodePoints input))
  /\ (forall (input : js_string) (opts : options),
         saslprep normalize_NFKC tables (JsString input) opts =
         if (length input =? 0)%nat then Ok []
         else
           str <- fromCodePoint (flat_map (map_code_point tables) (toCodePoints input)) ;;
           checks tables opts (normalize_NFKC str)).
Proof.
  assert (Hcps : forall cps,
             mapping2nothing_step tables (mapping2space_step tables cps)
             = flat_map (map_code_point tables) cps).
  { unfold mapping2nothing_step, mapping2space_step.
    induction cps as [|c cps IH]; [reflexivity|].
    cbn [map filter flat_map]. rewrite IH. unfold map_code_point.
    destruct (commonly_mapped_to_nothing tables
                (if non_ASCII_space_characters tables c then 32 else c)); reflexivity. }
  split; [exact Hcps|]. split; [intros input; apply Hcps|].
  intros input opts. rewrite saslprep_checks.
  destruct (length input =? 0)%nat; [reflexivity|].
  unfold normalized_input, mapped_input. rewrite Hcps.
  destruct (fromCodePoint _); reflexivity.
Qed.

(** C9: on the empty string saslprep returns the empty string, whatever the
    tables, the options and the normalizer are: no later step is run. *)
Theorem saslprep_empty_string (normalize_NFKC : js_string -> js_string)
    (tables : code_points) (opts : options) :
  saslprep normalize_NFKC tables (JsString []) opts = Ok [].
Proof. reflexivity. Qed.

(** ** The checks on the normalized string *)

Section Checks.

Variable normalize_NFKC : js_string -> js_string.

(** NFKC of the empty string is the empty string. *)
Hypothesis NFKC_empty : normalize_NFKC [] = [].

Lemma normalized_input_empty (tables : code_points) :
  normalized_input normalize_NFKC tables [] = Ok [].
Proof. unfold normalized_input. cbn. now rewrite NFKC_empty. Qed.

(** A string with a normalized string [n]: either both are empty and
    saslprep returns the empty string, or saslprep runs the checks on [n]. *)
Lemma saslprep_cases (tables : code_points) (input n : js_string) :
  normalized_input normalize_NFKC tables input = Ok n ->
  (input = [] /\ n = [])
  \/ (input <> [] /\
      forall opts, saslprep normalize_NFKC tables (JsString input) opts
                   = checks tables opts n).
Proof.
  intros Hn. destruct input as [|u rest].
  - left. rewrite normalized_input_empty in Hn. now inversion Hn.
  - right. split; [discriminate|]. intros opts.
    rewrite saslprep_nonempty by discriminate. now rewrite Hn.
Qed.

(** C2: a non-empty string whose code points are all in the
    commonly-mapped-to-nothing table and not in the non-ASCII-space table is
    mapped to the empty sequence and normalized to the empty string; the
    first character of that string is undefined, reading its code point
    throws the engine's TypeError, which is neither a result nor one of the
    five enumerated error kinds. *)
Theorem saslprep_all_mapped_to_nothing (tables : code_points) (input : js_string)
    (opts : options) :
  input <> [] ->
  Forall (fun c => commonly_mapped_to_nothing tables c = true
                   /\ non_ASCII_space_characters tables c = false)
         (toCodePoints input) ->
  normalized_input normalize_NFKC tables input = Ok []
  /\ getCodePoint (first (@nil Z)) = Throw RuntimeTypeError
  /\ saslprep normalize_NFKC tables (JsString input) opts = Throw RuntimeTypeError
  /\ enumerated_error RuntimeTypeError = false.
Proof.
  intros Hne Hall.
  assert (Hmapped : mapped_input tables input = []).
  { unfold mapped_input, mapping2nothing_step, mapping2space_step.
    induction Hall as [|c cps [Hnothing Hspace] _ IH]; [reflexivity|].
    cbn [map filter]. rewrite Hspace, Hnothing. exact IH. }
  assert (Hn : normalized_input normalize_NFKC tables input = Ok []).
  { unfold normalized_input. rewrite Hmapped. cbn. now rewrite NFKC_empty. }
  split; [exact Hn|]. split; [reflexivity|]. split; [|reflexivity].
  rewrite saslprep_nonempty by exact Hne. rewrite Hn. cbn [bind].
  unfold checks. change (toCodePoints []) with (@nil Z).
  cbn [existsb]. rewrite andb_false_r. reflexivity.
Qed.

(** C6: when a code point of the normalized sequence is in the prohibited
    table saslprep throws ProhibitedCharacter, whatever the options and the
    other tables say (the check comes before the unassigned and the
    bidirectional checks); when none is, it never throws that error. *)
Theorem prohibited_check (tables : code_points) (input : js_string) :
  utf16 input ->
  exists n,
    normalized_input normalize_NFKC tables input = Ok n
    /\ (existsb (prohibited_characters tables) (toCodePoints n) = true ->
        forall opts,
          saslprep normalize_NFKC tables (JsString input) opts = Throw ProhibitedCharacter)
    /\ (existsb (prohibited_characters tables) (toCodePoints n) = false ->
        forall opts,
          saslprep normalize_NFKC tables (JsString input) opts <> Throw ProhibitedCharacter).
Proof.
  intros Hin.
  destruct (normalized_input_total normalize_NFKC tables input Hin) as [n Hn].
  exists n. split; [exact Hn|].
  destruct (saslprep_cases tables input n Hn) as [[-> ->] | [_ Hrun]].
  - split; [discriminate | intros _ opts; discriminate].
  - split; intros Hp opts; rewrite Hrun; unfold checks; rewrite Hp.
    + reflexivity.
    + destruct (allowUnassigned_not_true opts && _); [discriminate|].
      destruct (existsb (bidirectional_r_al tables) _ && existsb _ _); [discriminate|].
      destruct (first n); [|discriminate].
      destruct (last n); [|discriminate].
      destruct (_ && _); discriminate.
Qed.

(** C8: a string that passes the prohibit and the unassigned checks and
    whose normalized sequence has a code point in the bidi-R-AL table and a
    code point in the bidi-L table is refused with BidiMixedDirection. *)
Theorem bidi_mixed_check (tables : code_points) (input : js_string) :
  utf16 input ->
  exists n,
    normalized_input normalize_NFKC tables input = Ok n
    /\ forall opts,
        existsb (prohibited_characters tables) (toCodePoints n) = false ->
        allowUnassigned opts = Some true
        \/ existsb (unassigned_code_points tables) (toCodePoints n) = false ->
        existsb (bidirectional_r_al tables) (toCodePoints n) = true ->
        existsb (bidirectional_l tables) (toCodePoints n) = true ->
        saslprep normalize_NFKC tables (JsString input) opts = Throw BidiMixedDirection.
Proof.
  intros Hin.
  destruct (normalized_input_total normalize_NFKC tables input Hin) as [n Hn].
  exists n. split; [exact Hn|]. intros opts Hp Hu Hral Hl.
  destruct (saslprep_cases tables input n Hn) as [[-> ->] | [_ Hrun]];
    [discriminate Hral|].
  rewrite Hrun. unfold checks. rewrite Hp, Hral, Hl.
  replace (allowUnassigned_not_true opts
           && existsb (unassigned_code_points tables) (toCodePoints n)) with false.
  - reflexivity.
  - destruct Hu as [Hu | Hu].
    + unfold allowUnassigned_not_true. now rewrite Hu.
    + rewrite Hu. now rewrite andb_false_r.
Qed.

(** X19: after the prohibit check, when allowUnassigned is not true (absent
    or false) and a code point of the normalized sequence is in the
    unassigned table, saslprep throws UnassignedCodePoint; when
    allowUnassigned is true the unassigned table is not consulted at all
    (the outcome is the one for an empty unassigned table), and a string
    with an unassigned code point that passes the other checks as saslprep
    runs them (the check of the two ends on code units) is returned
    normalized. *)
Theorem unassigned_check (tables : code_points) (input : js_string) :
  utf16 input ->
  exists n,
    normalized_input normalize_NFKC tables input = Ok n
    /\ (forall opts,
          existsb (prohibited_characters tables) (toCodePoints n) = false ->
          existsb (unassigned_code_points tables) (toCodePoints n) = true ->
          allowUnassigned opts <> Some true ->
          saslprep normalize_NFKC tables (JsString input) opts = Throw UnassignedCodePoint)
    /\ (forall opts,
          allowUnassigned opts = Some true ->
          saslprep normalize_NFKC tables (JsString input) opts
          = saslprep normalize_NFKC (without_unassigned tables) (JsString input) opts)
    /\ (forall opts,
          allowUnassigned opts = Some true ->
          existsb (unassigned_code_points tables) (toCodePoints n) = true ->
          existsb (prohibited_characters tables) (toCodePoints n) = false ->
          existsb (bidirectional_r_al tables) (toCodePoints n)
          && existsb (bidirectional_l tables) (toCodePoints n) = false ->
          (existsb (bidirectional_r_al tables) (toCodePoints n) = true ->
           first_last_units_RAL tables n = true) ->
          saslprep normalize_NFKC tables (JsString input) opts = Ok n).
Proof.
  intros Hin.
  destruct (normalized_input_total normalize_NFKC tables input Hin) as [n Hn].
  exists n. split; [exact Hn|]. split; [|split].
  - intros opts Hp Hu Hopt.
    destruct (saslprep_cases tables input n Hn) as [[-> ->] | [_ Hrun]];
      [discriminate Hu|].
    rewrite Hrun. unfold checks. rewrite Hp, Hu.
    replace (allowUnassigned_not_true opts) with true; [reflexivity|].
    unfold allowUnassigned_not_true.
    destruct (allowUnassigned opts) as [[|]|]; congruence.
  - intros opts Hopt. rewrite !saslprep_checks.
    destruct (length input =? 0)%nat; [reflexivity|].
    change (normalized_input normalize_NFKC (without_unassigned tables) input)
      with (normalized_input normalize_NFKC tables input).
    rewrite Hn. cbn [bind]. unfold checks, allowUnassigned_not_true.
    rewrite Hopt. reflexivity.
  - intros opts Hopt Hu Hp Hmixed Hedge.
    destruct (saslprep_cases tables input n Hn) as [[-> ->] | [_ Hrun]];
      [discriminate Hu|].
    destruct (first_last_defined n (existsb_toCodePoints_nonempty _ _ Hu))
      as [f [l [Hf Hl]]].
    rewrite Hrun. unfold checks, allowUnassigned_not_true.
    rewrite Hp, Hopt, Hmixed, Hf, Hl. cbn [andb].
    destruct (existsb (bidirectional_r_al tables) (toCodePoints n)); [|reflexivity].
    now rewrite (Hedge eq_refl).
Qed.

End Checks.

(** ** The returned string *)

Section Output.

Variable normalize_NFKC : js_string -> js_string.

(** The checks return the normalized string they were given, or throw. *)
Lemma checks_Ok (tables : code_points) (opts : options) (n y : js_string) :
  checks tables opts n = Ok y -> y = n.
Proof.
  unfold checks.
  destruct (existsb (prohibited_characters tables) _); [discriminate|].
  destruct (allowUnassigned_not_true opts && _); [discriminate|].
  destruct (existsb (bidirectional_r_al tables) _ && existsb _ _); [discriminate|].
  destruct (first n); [|discriminate].
  destruct (last n); [|discriminate].
  destruct (_ && _); [discriminate|].
  intros H. now inversion H.
Qed.

(** A successful call on a non-empty string returns the normalized string,
    and that string passes the checks. *)
Lemma saslprep_Ok (tables : code_points) (opts : options) (x y : js_string) :
  x <> [] ->
  saslprep normalize_NFKC tables (JsString x) opts = Ok y ->
  normalized_input normalize_NFKC tables x = Ok y /\ checks tables opts y = Ok y.
Proof.
  intros Hne. rewrite saslprep_nonempty by exact Hne.
  destruct (normalized_input normalize_NFKC tables x) as [n|e]; [|discriminate].
  cbn [bind]. intros Hc. pose proof (checks_Ok _ _ _ _ Hc) as ->. auto.
Qed.

(** The mapping step changes nothing in a sequence without members of the
    map-to-nothing table whose only member of the space table is U+0020. *)
Lemma mapping_fixed (tables : code_points) (cps : list Z) :
  Forall (fun c => commonly_mapped_to_nothing tables c = false) cps ->
  Forall (fun c => non_ASCII_space_characters tables c = true -> c = 0x20) cps ->
  mapping2nothing_step tables (mapping2space_step tables cps) = cps.
Proof.
  unfold mapping2nothing_step, mapping2space_step.
  induction cps as [|c cps IH]; intros Hnothing Hspace; [reflexivity|].
  inversion Hnothing as [|? ? Hc Hnothing']; subst.
  inversion Hspace as [|? ? Hs Hspace']; subst.
  cbn [map filter].
  assert (Hsub : (if non_ASCII_space_characters tables c then 0x20 else c) = c).
  { destruct (non_ASCII_space_characters tables c); [symmetry; auto | reflexivity]. }
  rewrite Hsub, Hc. cbn [negb]. f_equal. auto.
Qed.



(** What step 4.2 of saslprep reads: for a string that reaches it with a
    bidi-R-AL code point in its normalized sequence, saslprep succeeds
    exactly when the first and the last code unit of the normalized string
    are in the bidi-R-AL table, and throws BidiEdgePlacement otherwise. *)
Lemma bidi_edge_check_on_units (tables : code_points) (opts : options)
    (input n : js_string) :
  input <> [] ->
  normalized_input normalize_NFKC tables input = Ok n ->
  existsb (prohibited_characters tables) (toCodePoints n) = false ->
  allowUnassigned_not_true opts
  && existsb (unassigned_code_points tables) (toCodePoints n) = false ->
  existsb (bidirectional_r_al tables) (toCodePoints n) = true ->
  existsb (bidirectional_l tables) (toCodePoints n) = false ->
  saslprep normalize_NFKC tables (JsString input) opts =
  if first_last_units_RAL tables n then Ok n else Throw BidiEdgePlacement.
Proof.
  intros Hne Hn Hp Hu Hral Hl.
  rewrite saslprep_nonempty by exact Hne. rewrite Hn. cbn [bind].
  destruct (first_last_defined n (existsb_toCodePoints_nonempty _ _ Hral))
    as [f [l [Hf Hlast]]].
  unfold checks. rewrite Hp, Hu, Hral, Hl, Hf, Hlast. cbn [andb].
  destruct (first_last_units_RAL tables n); reflexivity.
Qed.

End Output.

(** ** Worked examples *)

(** C1: with a bidi-R-AL code point in the normalized sequence, the check
    of the two ends should read the first and the last code point of the
    re-decoded sequence.  saslprep reads the first and the last UTF-16 code
    unit of the normalized string instead.  For the one-character string
    U+10800 (a surrogate pair, in the bidi-R-AL table) both ends of the
    decoded sequence are in the table, and saslprep throws
    BidiEdgePlacement; for U+10000 U+05D0 with the unit 0xD800 in the
    table, the first code point is not in the table, and saslprep returns
    the string. *)
Theorem bidi_edge_check_reads_code_units :
  (normalized_input nfkc_examples example_tables [0xD802; 0xDC00] = Ok [0xD802; 0xDC00]
   /\ toCodePoints [0xD802; 0xDC00] = [0x10800]
   /\ existsb (bidirectional_r_al example_tables) (toCodePoints [0xD802; 0xDC00]) = true
   /\ first_last_code_points_RAL example_tables (toCodePoints [0xD802; 0xDC00]) = true
   /\ first_last_units_RAL example_tables [0xD802; 0xDC00] = false
   /\ saslprep nfkc_examples example_tables (JsString [0xD802; 0xDC00]) default_options
      = Throw BidiEdgePlacement)
  /\ (toCodePoints [0xD800; 0xDC00; 0x5D0] = [0x10000; 0x5D0]
      /\ existsb (bidirectional_r_al tables_surrogate_RAL)
           (toCodePoints [0xD800; 0xDC00; 0x5D0]) = true
      /\ first_last_code_points_RAL tables_surrogate_RAL
           (toCodePoints [0xD800; 0xDC00; 0x5D0]) = false
      /\ saslprep nfkc_examples tables_surrogate_RAL
           (JsString [0xD800; 0xDC00; 0x5D0]) default_options
         = Ok [0xD800; 0xDC00; 0x5D0]).
Proof. repeat split; vm_compute; reflexivity. Qed.

(** C7: with allowUnassigned = true an input whose only violation is an
    unassigned code point should be returned.  For U+10800 U+0378 U+10800,
    with U+10800 in the bidi-R-AL table and U+0378 in the unassigned table,
    the normalized sequence has no prohibited code point and no bidi-L code
    point and its first and last code point are in the bidi-R-AL table: the
    unassigned code point is the only violation, and by default saslprep
    throws UnassignedCodePoint.  With allowUnassigned = true saslprep does
    not return the string: it reads the first and the last UTF-16 code unit
    (0xD802 and 0xDC00) and throws BidiEdgePlacement. *)
Theorem unassigned_allowed_edge_reads_code_units :
  normalized_input nfkc_examples example_tables [0xD802; 0xDC00; 0x378; 0xD802; 0xDC00]
  = Ok [0xD802; 0xDC00; 0x378; 0xD802; 0xDC00]
  /\ toCodePoints [0xD802; 0xDC00; 0x378; 0xD802; 0xDC00] = [0x10800; 0x378; 0x10800]
  /\ existsb (prohibited_characters example_tables) [0x10800; 0x378; 0x10800] = false
  /\ existsb (unassigned_code_points example_tables) [0x10800; 0x378; 0x10800] = true
  /\ existsb (bidirectional_l example_tables) [0x10800; 0x378; 0x10800] = false
  /\ first_last_code_points_RAL example_tables [0x10800; 0x378; 0x10800] = true
  /\ saslprep nfkc_examples example_tables
       (JsString [0xD802; 0xDC00; 0x378; 0xD802; 0xDC00]) default_options
     = Throw UnassignedCodePoint
  /\ saslprep nfkc_examples example_tables
       (JsString [0xD802; 0xDC00; 0x378; 0xD802; 0xDC00])
       {| allowUnassigned := Some true |}
     = Throw BidiEdgePlacement.
Proof. repeat split; vm_compute; reflexivity. Qed.

(** The soft hyphen alone: mapped to nothing, then the TypeError. *)
Lemma saslprep_all_mapped_to_nothing_witness :
  [0xAD] <> []
  /\ saslprep nfkc_examples example_tables (JsString [0xAD]) default_options
     = Throw RuntimeTypeError.
Proof.
  split; [discriminate|].
  refine (proj1 (proj2 (proj2
    (saslprep_all_mapped_to_nothing nfkc_examples eq_refl example_tables [0xAD]
       default_options _ _)))).
  - discriminate.
  - change (toCodePoints [0xAD]) with [0xAD]. repeat constructor.
Defined.

(** A string with a prohibited U+0000, an unassigned U+0378, alef and "z":
    the prohibited character is the one reported. *)
Lemma prohibited_check_witness :
  utf16 [0x61; 0x0; 0x378; 0x5D0; 0x7A]
  /\ saslprep nfkc_examples example_tables (JsString [0x61; 0x0; 0x378; 0x5D0; 0x7A])
       default_options
     = Throw ProhibitedCharacter.
Proof.
  assert (Hin : utf16 [0x61; 0x0; 0x378; 0x5D0; 0x7A]) by code_units.
  split; [exact Hin|].
  destruct (prohibited_check nfkc_examples eq_refl example_tables
              [0x61; 0x0; 0x378; 0x5D0; 0x7A] Hin)
    as [n [Hn [Hyes _]]].
  vm_compute in Hn. injection Hn as <-.
  apply Hyes. reflexivity.
Defined.

(** "a" followed by the unassigned U+0378: refused by default, returned
    when allowUnassigned is true. *)
Lemma unassigned_check_witness :
  utf16 [0x61; 0x378]
  /\ saslprep nfkc_examples example_tables (JsString [0x61; 0x378]) default_options
     = Throw UnassignedCodePoint
  /\ saslprep nfkc_examples example_tables (JsString [0x61; 0x378])
       {| allowUnassigned := Some true |}
     = Ok [0x61; 0x378].
Proof.
  assert (Hin : utf16 [0x61; 0x378]) by code_units.
  split; [exact Hin|].
  destruct (unassigned_check nfkc_examples eq_refl example_tables [0x61; 0x378] Hin)
    as [n [Hn [Hdefault [_ Hallowed]]]].
  vm_compute in Hn. injection Hn as <-.
  split.
  - apply Hdefault; [reflexivity | reflexivity | discriminate].
  - apply Hallowed; try reflexivity. discriminate.
Defined.

(** Alef, "z", alef: right-to-left and left-to-right together. *)
Lemma bidi_mixed_check_witness :
  utf16 [0x5D0; 0x7A; 0x5D0]
  /\ saslprep nfkc_examples example_tables (JsString [0x5D0; 0x7A; 0x5D0]) default_options
     = Throw BidiMixedDirection.
Proof.
  assert (Hin : utf16 [0x5D0; 0x7A; 0x5D0]) by code_units.
  split; [exact Hin|].
  destruct (bidi_mixed_check nfkc_examples eq_refl example_tables [0x5D0; 0x7A; 0x5D0] Hin)
    as [n [Hn Hmixed]].
  vm_compute in Hn. injection Hn as <-.
  apply Hmixed; try reflexivity. right. reflexivity.
Defined.




(** ** More on the decoder *)

Section DecoderFacts.

Lemma surrogate_scalar_not_surrogate (h l : Z) :
  is_high_surrogate h = true -> is_low_surrogate l = true ->
  is_high_surrogate ((h - 0xD800) * 0x400 + (l - 0xDC00) + 0x10000) = false
  /\ is_low_surrogate ((h - 0xD800) * 0x400 + (l - 0xDC00) + 0x10000) = false.
Proof.
  intros Hh Hl. destruct (surrogates_code_units _ _ Hh Hl).
  unfold is_high_surrogate, is_low_surrogate.
  split; apply andb_false_iff; right; apply Z.leb_gt; lia.
Qed.

(** The first code point of a non-empty string is its first unit, or a
    joined scalar, which is no surrogate. *)
Lemma decode_head (u : Z) (rest : js_string) :
  exists d tl, decode (u :: rest) = d :: tl
               /\ (d = u \/ (is_high_surrogate d = false /\ is_low_surrogate d = false)).
Proof.
  destruct rest as [|l rest'].
  - exists u, []. split; [reflexivity | now left].
  - rewrite decode_pair.
    destruct (is_high_surrogate u && is_low_surrogate l) eqn:Hpair.
    + apply andb_true_iff in Hpair as [Hh Hl].
      eexists _, _. split; [reflexivity|]. right.
      exact (surrogate_scalar_not_surrogate _ _ Hh Hl).
    + eexists _, _. split; [reflexivity | now left].
Qed.

Lemma no_surrogate_pair_cons (c d : Z) (r : list Z) :
  no_surrogate_pair (c :: d :: r) =
  negb (is_high_surrogate c && is_low_surrogate d) && no_surrogate_pair (d :: r).
Proof. reflexivity. Qed.

Lemma decode_without_high_surrogates (s : js_string) :
  Forall (fun u => is_high_surrogate u = false) s -> decode s = s.
Proof.
  induction s as [|u|u l rest IH1 IH2] using js_string_pair_ind; intros Hs.
  - reflexivity.
  - reflexivity.
  - inversion Hs as [|? ? Hu Hs']; subst.
    rewrite decode_pair, Hu. cbn [andb]. now rewrite (IH2 Hs').
Qed.

Lemma last_cons_cons {T : Type} (a b : T) (r : list T) :
  last (a :: b :: r) = last (b :: r).
Proof. reflexivity. Qed.

Lemma last_snoc {T : Type} (x : list T) (a : T) : last (x ++ [a]) = Some a.
Proof.
  unfold last. rewrite length_app. cbn [length].
  replace (length x + 1)%nat with (S (length x)) by lia.
  rewrite nth_error_app2 by lia. now rewrite Nat.sub_diag.
Qed.

(** A code point above 0xFFFF is encoded as a surrogate pair that decodes
    to it. *)
Lemma fromCodePoint1_supplementary (cp : Z) :
  0xFFFF < cp <= 0x10FFFF ->
  exists h l, fromCodePoint1 cp = Ok [h; l]
              /\ is_high_surrogate h = true /\ is_low_surrogate l = true
              /\ (h - 0xD800) * 0x400 + (l - 0xDC00) + 0x10000 = cp.
Proof.
  intros Hcp. unfold fromCodePoint1.
  replace (cp <? 0) with false by (symmetry; apply Z.ltb_ge; lia).
  replace (0x10FFFF <? cp) with false by (symmetry; apply Z.ltb_ge; lia).
  replace (cp <=? 0xFFFF) with false by (symmetry; apply Z.leb_gt; lia).
  cbn [orb]. eexists _, _. split; [reflexivity|].
  rewrite Z.shiftr_div_pow2 by lia. change (2 ^ 10) with 0x400.
  pose proof (Z.div_mod (cp - 0x10000) 0x400 ltac:(lia)) as Hdm.
  pose proof (Z.mod_pos_bound (cp - 0x10000) 0x400 ltac:(lia)) as Hm.
  assert (Hd : 0 <= (cp - 0x10000) / 0x400 <= 0x3FF).
  { split; [apply Z.div_pos; lia|].
    apply Z.lt_succ_r. apply Z.div_lt_upper_bound; lia. }
  unfold is_high_surrogate, is_low_surrogate.
  rewrite !andb_true_iff, !Z.leb_le. lia.
Qed.

(** The first unit of an encoded non-empty sequence is the first code point
    itself, or the high half of its pair. *)
Lemma fromCodePoint_head (c : Z) (rest : list Z) (t : js_string) :
  fromCodePoint (c :: rest) = Ok t ->
  exists u t', t = u :: t' /\ (u = c \/ is_low_surrogate u = false).
Proof.
  cbn [fromCodePoint]. unfold fromCodePoint1.
  destruct ((c <? 0) || (0x10FFFF <? c)) eqn:Hrange; [discriminate|].
  apply orb_false_iff in Hrange as [_ Hhi]. apply Z.ltb_ge in Hhi.
  destruct (c <=? 0xFFFF) eqn:Hbmp; cbn [bind];
    destruct (fromCodePoint rest) as [t0|e]; try discriminate; cbn [bind];
    intros H; inversion H; subst; cbn [app].
  - eexists _, _. split; [reflexivity | now left].
  - apply Z.leb_gt in Hbmp.
    destruct (fromCodePoint1_supplementary c ltac:(lia)) as [h [l [Hpair [Hh [_ _]]]]].
    unfold fromCodePoint1 in Hpair.
    replace (c <? 0) with false in Hpair by (symmetry; apply Z.ltb_ge; lia).
    replace (0x10FFFF <? c) with false in Hpair by (symmetry; apply Z.ltb_ge; lia).
    replace (c <=? 0xFFFF) with false in Hpair by (symmetry; apply Z.leb_gt; lia).
    cbn [orb] in Hpair. inversion Hpair; subst.
    eexists _, _. split; [reflexivity|]. right.
    unfold is_high_surrogate, is_low_surrogate in *.
    apply andb_true_iff in Hh as [_ Hh]. apply Z.leb_le in Hh.
    apply andb_false_iff. left. apply Z.leb_gt. lia.
Qed.

Lemma fromCodePoint_nil_inv (cps : list Z) :
  fromCodePoint cps = Ok [] -> cps = [].
Proof.
  destruct cps as [|c rest]; [reflexivity|]. intros H.
  destruct (fromCodePoint_head c rest [] H) as [u [t' [Hnil _]]]. discriminate.
Qed.

(** [String.fromCodePoint] throws nothing but a RangeError. *)
Lemma fromCodePoint_Throw (cps : list Z) (e : error) :
  fromCodePoint cps = Throw e -> e = RangeError.
Proof.
  induction cps as [|c rest IH]; [discriminate|].
  cbn [fromCodePoint]. unfold fromCodePoint1.
  destruct ((c <? 0) || (0x10FFFF <? c)); cbn [bind].
  - intros H. now inversion H.
  - destruct (c <=? 0xFFFF); cbn [bind];
      destruct (fromCodePoint rest) as [t|e']; cbn [bind]; try discriminate;
      intros H; inversion H; subst; now apply IH.
Qed.

(** Decoding an encoded sequence without a high surrogate directly
    followed by a low surrogate gives the sequence back. *)
Lemma fromCodePoint_then_decode (cps : list Z) (s : js_string) :
  fromCodePoint cps = Ok s ->
  no_surrogate_pair cps = true ->
  decode s = cps.
Proof.
  revert s.
  induction cps as [|c rest IH]; intros s Henc Hnp.
  - now inversion Henc.
  - assert (Hrest : no_surrogate_pair rest = true).
    { destruct rest as [|c2 rest']; [reflexivity|].
      rewrite no_surrogate_pair_cons in Hnp. now apply andb_true_iff in Hnp. }
    cbn [fromCodePoint] in Henc.
    destruct (fromCodePoint1 c) as [s1|e] eqn:H1; [|discriminate].
    cbn [bind] in Henc.
    destruct (fromCodePoint rest) as [t|e] eqn:Ht; [|discriminate].
    cbn [bind] in Henc. inversion Henc; subst s. clear Henc.
    specialize (IH t eq_refl Hrest).
    unfold fromCodePoint1 in H1.
    destruct ((c <? 0) || (0x10FFFF <? c)) eqn:Hrange; [discriminate|].
    apply orb_false_iff in Hrange as [_ Hhi]. apply Z.ltb_ge in Hhi.
    destruct (c <=? 0xFFFF) eqn:Hbmp.
    + inversion H1; subst s1. cbn [app].
      destruct rest as [|c2 rest'].
      * cbn in Ht. inversion Ht. reflexivity.
      * destruct (fromCodePoint_head c2 rest' t Ht) as [u [t' [-> Hu]]].
        rewrite decode_pair.
        replace (is_high_surrogate c && is_low_surrogate u) with false.
        -- now rewrite IH.
        -- symmetry. destruct Hu as [-> | Hlow].
           ++ rewrite no_surrogate_pair_cons in Hnp.
              apply andb_true_iff in Hnp as [Hnp _].
              now apply negb_true_iff in Hnp.
           ++ now rewrite Hlow, andb_false_r.
    + apply Z.leb_gt in Hbmp.
      destruct (fromCodePoint1_supplementary c ltac:(lia))
        as [h [l [Hpair [Hh [Hl Hval]]]]].
      unfold fromCodePoint1 in Hpair.
      replace (c <? 0) with false in Hpair by (symmetry; apply Z.ltb_ge; lia).
      replace (0x10FFFF <? c) with false in Hpair by (symmetry; apply Z.ltb_ge; lia).
      replace (c <=? 0xFFFF) with false in Hpair by (symmetry; apply Z.leb_gt; lia).
      cbn [orb] in Hpair. rewrite Hpair in H1. inversion H1; subst s1.
      cbn [app]. rewrite decode_pair, Hh, Hl. cbn [andb].
      now rewrite Hval, IH.
Qed.

End DecoderFacts.

(** X1: encoding the code points of a string with String.fromCodePoint
    gives the string back, so two strings with the same code points are the
    same string. *)
Theorem toCodePoints_round_trip (s : js_string) :
  utf16 s ->
  fromCodePoint (toCodePoints s) = Ok s
  /\ (forall t, utf16 t -> toCodePoints t = toCodePoints s -> t = s).
Proof.
  intros Hs. split; [exact (fromCodePoint_toCodePoints s Hs)|].
  intros t Ht Heq.
  pose proof (fromCodePoint_toCodePoints t Ht) as Hrt.
  rewrite Heq, (fromCodePoint_toCodePoints s Hs) in Hrt. now inversion Hrt.
Qed.

(** X2: the code points of a string are integers from 0 to 0x10FFFF. *)
Theorem toCodePoints_in_range (s : js_string) :
  utf16 s -> Forall (fun c => 0 <= c <= 0x10FFFF) (toCodePoints s).
Proof.
  intros Hs. rewrite toCodePoints_decode. exact (decode_code_points s Hs).
Qed.

(** X3: the decoder gives at most one code point per code unit and at least
    one code point per two code units. *)
Theorem toCodePoints_length (s : js_string) :
  (length (toCodePoints s) <= length s <= 2 * length (toCodePoints s))%nat.
Proof.
  rewrite toCodePoints_decode.
  induction s as [|u|u l rest IH1 IH2] using js_string_pair_ind.
  - simpl. lia.
  - simpl. lia.
  - rewrite decode_pair.
    destruct (is_high_surrogate u && is_low_surrogate l); cbn [length] in *; lia.
Qed.

(** X4: a string without high surrogates is its own sequence of code points. *)
Theorem toCodePoints_without_high_surrogates (s : js_string) :
  Forall (fun u => is_high_surrogate u = false) s -> toCodePoints s = s.
Proof.
  rewrite toCodePoints_decode. apply decode_without_high_surrogates.
Qed.

(** X5: the decoder leaves no surrogate pair unjoined: in its output no high
    surrogate is directly followed by a low surrogate. *)
Theorem toCodePoints_joins_every_pair (s : js_string) :
  no_surrogate_pair (toCodePoints s) = true.
Proof.
  rewrite toCodePoints_decode.
  induction s as [|u|u l rest IH1 IH2] using js_string_pair_ind.
  - reflexivity.
  - reflexivity.
  - rewrite decode_pair.
    destruct (is_high_surrogate u && is_low_surrogate l) eqn:Hpair.
    + apply andb_true_iff in Hpair as [Hh Hl].
      destruct (surrogate_scalar_not_surrogate _ _ Hh Hl) as [Hnh _].
      destruct (decode rest) as [|d tl]; [reflexivity|].
      rewrite no_surrogate_pair_cons, Hnh. exact IH1.
    + destruct (decode_head l rest) as [d [tl [Hd Hhead]]].
      rewrite Hd in *. rewrite no_surrogate_pair_cons, IH2, andb_true_r.
      destruct Hhead as [-> | [_ Hlow]].
      * now rewrite Hpair.
      * now rewrite Hlow, andb_false_r.
Qed.

(** X6: decoding an encoded sequence of code points in which no high
    surrogate is directly followed by a low surrogate gives the sequence
    back. *)
Theorem toCodePoints_fromCodePoint (cps : list Z) (s : js_string) :
  fromCodePoint cps = Ok s ->
  no_surrogate_pair cps = true ->
  toCodePoints s = cps.
Proof.
  rewrite toCodePoints_decode. apply fromCodePoint_then_decode.
Qed.

(** X7: the decoder distributes over a concatenation whose two sides do not
    meet in a surrogate pair. *)
Theorem toCodePoints_app (s t : js_string) :
  boundary_pair s t = false ->
  toCodePoints (s ++ t) = toCodePoints s ++ toCodePoints t.
Proof.
  rewrite !toCodePoints_decode.
  induction s as [|u|u l rest IH1 IH2] using js_string_pair_ind; intros Hb.
  - reflexivity.
  - destruct t as [|l t']; [reflexivity|].
    cbn [app]. rewrite decode_pair.
    unfold boundary_pair in Hb. cbn in Hb. now rewrite Hb.
  - cbn [app]. rewrite !decode_pair.
    destruct (is_high_surrogate u && is_low_surrogate l).
    + cbn [app]. f_equal. apply IH1.
      destruct rest as [|r rest']; [reflexivity|].
      unfold boundary_pair in *. now rewrite !last_cons_cons in Hb.
    + cbn [app]. f_equal. apply (IH2 Hb).
Qed.

(** X8: on a string, getCodePoint(first(s)) and getCodePoint(last(s))
    return the first and the last UTF-16 code unit of the string, and throw
    the engine's TypeError exactly when the string is empty. *)
Theorem getCodePoint_first_last (s : js_string) :
  (getCodePoint (first s) = Throw RuntimeTypeError <-> s = [])
  /\ (getCodePoint (last s) = Throw RuntimeTypeError <-> s = [])
  /\ (forall u, getCodePoint (first (u :: s)) = Ok u)
  /\ (forall u, getCodePoint (last (s ++ [u])) = Ok u).
Proof.
  split; [|split; [|split]].
  - destruct s; split; intros H; try reflexivity; discriminate H.
  - split; intros H; [|now subst].
    destruct s as [|b r]; [reflexivity|].
    destruct (first_last_defined (b :: r)) as [f [l [_ Hl]]]; [discriminate|].
    rewrite Hl in H. discriminate H.
  - reflexivity.
  - intros u. now rewrite last_snoc.
Qed.

(** ** More on the pipeline *)

Section Outcomes.

Variable normalize_NFKC : js_string -> js_string.

(** After the mapping step no code point is in the map-to-nothing table,
    and U+0020 is the only one that may be in the non-ASCII-space table. *)
Lemma mapping_members (tables : code_points) (cps : list Z) :
  Forall (fun c => commonly_mapped_to_nothing tables c = false
                   /\ (non_ASCII_space_characters tables c = true -> c = 0x20))
         (mapping2nothing_step tables (mapping2space_step tables cps)).
Proof.
  apply Forall_forall. intros c Hc.
  unfold mapping2nothing_step, mapping2space_step in Hc.
  apply filter_In in Hc as [Hc Hkeep]. apply negb_true_iff in Hkeep.
  split; [exact Hkeep|]. intros Hspace.
  apply in_map_iff in Hc as [d [Hd _]].
  destruct (non_ASCII_space_characters tables d) eqn:Hsd; [now subst c|].
  subst c. congruence.
Qed.

(** The checks throw [e] exactly when the normalized string shows the
    cause of [e]. *)
Lemma checks_error_cause (tables : code_points) (opts : options) (n : js_string)
    (e : error) :
  checks tables opts n = Throw e <-> error_cause tables opts n e = true.
Proof.
  destruct n as [|u r].
  - unfold checks, error_cause. change (toCodePoints []) with (@nil Z).
    cbn [existsb first last length nth_error andb negb].
    destruct (allowUnassigned_not_true opts); cbn [andb negb];
      destruct e; split; intros H; try reflexivity; try discriminate H.
  - destruct (first_last_defined (u :: r)) as [f [l [Hf Hl]]]; [discriminate|].
    unfold checks, error_cause.
    remember (first_last_units_RAL tables (u :: r)) as edge.
    rewrite Hf, Hl.
    destruct (existsb (prohibited_characters tables) _);
      destruct (allowUnassigned_not_true opts);
      destruct (existsb (unassigned_code_points tables) _);
      destruct (existsb (bidirectional_r_al tables) _);
      destruct (existsb (bidirectional_l tables) _);
      destruct edge; cbn [andb negb];
      destruct e; split; intros H; try reflexivity; try discriminate H.
Qed.

(** The checks return the string exactly when it is not empty and shows no
    cause of an error. *)
Lemma checks_Ok_inv (tables : code_points) (opts : options) (n y : js_string) :
  checks tables opts n = Ok y ->
  y = n /\ n <> []
  /\ existsb (prohibited_characters tables) (toCodePoints n) = false
  /\ allowUnassigned_not_true opts
     && existsb (unassigned_code_points tables) (toCodePoints n) = false
  /\ existsb (bidirectional_r_al tables) (toCodePoints n)
     && existsb (bidirectional_l tables) (toCodePoints n) = false
  /\ (existsb (bidirectional_r_al tables) (toCodePoints n) = true ->
      first_last_units_RAL tables n = true).
Proof.
  intros Hc. pose proof (checks_Ok _ _ _ _ Hc) as ->.
  destruct n as [|u r].
  - exfalso. unfold checks in Hc. change (toCodePoints []) with (@nil Z) in Hc.
    cbn [existsb first last length nth_error andb] in Hc.
    rewrite andb_false_r in Hc. discriminate Hc.
  - split; [reflexivity|]. split; [discriminate|].
    destruct (first_last_defined (u :: r)) as [f [l [Hf Hl]]]; [discriminate|].
    unfold checks in Hc.
    remember (first_last_units_RAL tables (u :: r)) as edge.
    rewrite Hf, Hl in Hc.
    destruct (existsb (prohibited_characters tables) _); [discriminate Hc|].
    destruct (allowUnassigned_not_true opts && _); [discriminate Hc|].
    destruct (existsb (bidirectional_r_al tables) _);
      destruct (existsb (bidirectional_l tables) _);
      destruct edge; cbn [andb negb] in Hc; try discriminate Hc; auto.
Qed.

Lemma normalized_input_Throw (tables : code_points) (x : js_string) (e : error) :
  normalized_input normalize_NFKC tables x = Throw e -> e = RangeError.
Proof.
  unfold normalized_input.
  destruct (fromCodePoint (mapped_input tables x)) as [str|e'] eqn:Hstr;
    cbn [bind]; [discriminate|].
  intros H. inversion H; subst. exact (fromCodePoint_Throw _ _ Hstr).
Qed.

Lemma plain_code_points_pass (tables : code_points) (p : Z -> bool) (cps : list Z) :
  (forall c, plain_code_point tables c = true -> p c = false) ->
  forallb (plain_code_point tables) cps = true ->
  existsb p cps = false.
Proof.
  intros Hp. induction cps as [|c cps IH]; [reflexivity|].
  cbn [forallb existsb]. intros H. apply andb_true_iff in H as [Hc Hrest].
  now rewrite (Hp c Hc), (IH Hrest).
Qed.

Lemma plain_code_point_inv (tables : code_points) (c : Z) :
  plain_code_point tables c = true ->
  commonly_mapped_to_nothing tables c = false
  /\ non_ASCII_space_characters tables c = false
  /\ prohibited_characters tables c = false
  /\ unassigned_code_points tables c = false
  /\ bidirectional_r_al tables c = false.
Proof.
  unfold plain_code_point. intros H. apply negb_true_iff in H.
  repeat (apply orb_false_iff in H; destruct H as [H ?]). auto.
Qed.

End Outcomes.

(** X9: the mapping step is idempotent: mapping a mapped sequence of code
    points again changes nothing. *)
Theorem mapping_idempotent (tables : code_points) (cps : list Z) :
  let mapped := mapping2nothing_step tables (mapping2space_step tables cps) in
  mapping2nothing_step tables (mapping2space_step tables mapped) = mapped.
Proof.
  intros mapped. pose proof (mapping_members tables cps) as Hm. fold mapped in Hm.
  apply mapping_fixed.
  - eapply Forall_impl; [|exact Hm]. intros c [H _]. exact H.
  - eapply Forall_impl; [|exact Hm]. intros c [_ H]. exact H.
Qed.

(** X10: the sequence that saslprep encodes and passes to NFKC is
    [mapped_input]; in it no code point is in the commonly-mapped-to-nothing
    table, and U+0020 is the only code point that may be in the
    non-ASCII-space table. *)
Theorem mapped_input_members (normalize_NFKC : js_string -> js_string)
    (tables : code_points) (input : js_string) :
  Forall (fun c => commonly_mapped_to_nothing tables c = false
                   /\ (non_ASCII_space_characters tables c = true -> c = 0x20))
         (mapped_input tables input)
  /\ (forall opts : options,
         saslprep normalize_NFKC tables (JsString input) opts =
         if (length input =? 0)%nat then Ok []
         else
           str <- fromCodePoint (mapped_input tables input) ;;
           checks tables opts (normalize_NFKC str)).
Proof.
  split; [apply mapping_members|].
  intros opts. rewrite saslprep_checks.
  destruct (length input =? 0)%nat; [reflexivity|].
  unfold normalized_input. destruct (fromCodePoint _); reflexivity.
Qed.

Section OutcomeTheorems.

Variable normalize_NFKC : js_string -> js_string.
Variable tables : code_points.

(** X11: a string that saslprep returns has passed every check: it has no
    prohibited code point, no unassigned code point unless allowUnassigned
    is true, not both a bidi-R-AL and a bidi-L code point, and when it has a
    bidi-R-AL code point its first and last code unit are in the bidi-R-AL
    table. *)
Theorem saslprep_success_output (x y : js_string) (opts : options) :
  saslprep normalize_NFKC tables (JsString x) opts = Ok y ->
  existsb (prohibited_characters tables) (toCodePoints y) = false
  /\ (allowUnassigned opts <> Some true ->
      existsb (unassigned_code_points tables) (toCodePoints y) = false)
  /\ existsb (bidirectional_r_al tables) (toCodePoints y)
     && existsb (bidirectional_l tables) (toCodePoints y) = false
  /\ (existsb (bidirectional_r_al tables) (toCodePoints y) = true ->
      first_last_units_RAL tables y = true).
Proof.
  intros Hx. destruct x as [|u r].
  - inversion Hx; subst y. repeat split; try reflexivity.
    intros H. discriminate H.
  - destruct (saslprep_Ok normalize_NFKC tables opts (u :: r) y) as [_ Hc];
      [discriminate | exact Hx |].
    destruct (checks_Ok_inv _ _ _ _ Hc) as [_ [_ [Hp [Hu [Hm He]]]]].
    repeat split; auto.
    intros Hopt. apply andb_false_iff in Hu as [Hu | Hu]; [|exact Hu].
    unfold allowUnassigned_not_true in Hu.
    destruct (allowUnassigned opts) as [[|]|]; congruence.
Qed.

(** X12: saslprep throws the engine's TypeError exactly on the non-empty
    strings whose normalized string is empty. *)
Theorem saslprep_TypeError_iff (x : js_string) (opts : options) :
  saslprep normalize_NFKC tables (JsString x) opts = Throw RuntimeTypeError
  <-> x <> [] /\ normalized_input normalize_NFKC tables x = Ok [].
Proof.
  split.
  - intros Hx. destruct x as [|u r]; [discriminate Hx|].
    split; [discriminate|].
    rewrite saslprep_nonempty in Hx by discriminate.
    destruct (normalized_input normalize_NFKC tables (u :: r)) as [n|e] eqn:Hn.
    + cbn [bind] in Hx. apply checks_error_cause in Hx.
      destruct n; [reflexivity | discriminate Hx].
    + cbn [bind] in Hx. inversion Hx; subst e.
      apply normalized_input_Throw in Hn. discriminate Hn.
  - intros [Hne Hn]. rewrite saslprep_nonempty by exact Hne.
    rewrite Hn. cbn [bind]. apply checks_error_cause. reflexivity.
Qed.

(** saslprep gives String.fromCodePoint code points only: without a limit
    on the number of arguments there is no RangeError on a string, and no
    TypeError for a non-string input either. *)
Lemma saslprep_encodes_code_points (x : js_string) (opts : options) :
  utf16 x ->
  saslprep normalize_NFKC tables (JsString x) opts <> Throw RangeError
  /\ saslprep normalize_NFKC tables (JsString x) opts <> Throw InvalidInputType.
Proof.
  intros Hx.
  destruct (normalized_input_total normalize_NFKC tables x Hx) as [n Hn].
  rewrite saslprep_checks. destruct (length x =? 0)%nat.
  - split; discriminate.
  - rewrite Hn. cbn [bind].
    split; intros H; apply checks_error_cause in H; discriminate H.
Qed.

(** X14: allowUnassigned only removes the UnassignedCodePoint error: with
    any options the outcome is the one for allowUnassigned = true, or the
    error UnassignedCodePoint; and an absent allowUnassigned behaves as
    false. *)
Theorem saslprep_allowUnassigned_effect (x : js_string) (opts : options) :
  (saslprep normalize_NFKC tables (JsString x) opts
   = saslprep normalize_NFKC tables (JsString x) {| allowUnassigned := Some true |}
   \/ saslprep normalize_NFKC tables (JsString x) opts = Throw UnassignedCodePoint)
  /\ saslprep normalize_NFKC tables (JsString x) {| allowUnassigned := None |}
     = saslprep normalize_NFKC tables (JsString x) {| allowUnassigned := Some false |}.
Proof.
  split; [|reflexivity].
  rewrite !saslprep_checks. destruct (length x =? 0)%nat; [now left|].
  destruct (normalized_input normalize_NFKC tables x) as [n|e]; [|now left].
  cbn [bind]. unfold checks.
  destruct (existsb (prohibited_characters tables) _); [now left|].
  change (allowUnassigned_not_true {| allowUnassigned := Some true |}) with false.
  cbn [andb].
  destruct (allowUnassigned_not_true opts && _); [now right | now left].
Qed.

(** X15: a successful call returns the empty string only for the empty
    string: a non-empty string is never prepared to the empty string. *)
Theorem saslprep_empty_output (x y : js_string) (opts : options) :
  saslprep normalize_NFKC tables (JsString x) opts = Ok y ->
  (y = [] <-> x = []).
Proof.
  intros Hx. destruct x as [|u r].
  - inversion Hx. split; reflexivity.
  - destruct (saslprep_Ok normalize_NFKC tables opts (u :: r) y) as [_ Hc];
      [discriminate | exact Hx |].
    destruct (checks_Ok_inv _ _ _ _ Hc) as [_ [Hne _]].
    split; intros H; [contradiction | discriminate H].
Qed.

(** Without a limit on the number of arguments, a string that NFKC leaves
    unchanged and whose code points are outside the map-to-nothing,
    non-ASCII-space, prohibited, unassigned and bidi-R-AL tables is returned
    as it is. *)
Lemma saslprep_plain_unlimited (x : js_string) (opts : options) :
  utf16 x ->
  normalize_NFKC x = x ->
  forallb (plain_code_point tables) (toCodePoints x) = true ->
  saslprep normalize_NFKC tables (JsString x) opts = Ok x.
Proof.
  intros Hx Hfix Hplain. destruct x as [|u r]; [reflexivity|].
  rewrite saslprep_nonempty by discriminate.
  assert (Hn : normalized_input normalize_NFKC tables (u :: r) = Ok (u :: r)).
  { unfold normalized_input, mapped_input. rewrite mapping_fixed.
    - rewrite (fromCodePoint_toCodePoints _ Hx). cbn [bind]. now rewrite Hfix.
    - apply Forall_forall. intros c Hc.
      apply (proj1 (forallb_forall _ _) Hplain), plain_code_point_inv in Hc. tauto.
    - apply Forall_forall. intros c Hc Hs.
      apply (proj1 (forallb_forall _ _) Hplain), plain_code_point_inv in Hc.
      destruct Hc as [_ [Hc _]]. congruence. }
  rewrite Hn. cbn [bind].
  destruct (first_last_defined (u :: r)) as [f [l [Hf Hl]]]; [discriminate|].
  unfold checks.
  rewrite (plain_code_points_pass tables (prohibited_characters tables) _
             (fun c H => proj1 (proj2 (proj2 (plain_code_point_inv tables c H)))) Hplain).
  rewrite (plain_code_points_pass tables (unassigned_code_points tables) _
             (fun c H => proj1 (proj2 (proj2 (proj2 (plain_code_point_inv tables c H)))))
             Hplain).
  rewrite (plain_code_points_pass tables (bidirectional_r_al tables) _
             (fun c H => proj2 (proj2 (proj2 (proj2 (plain_code_point_inv tables c H)))))
             Hplain).
  rewrite andb_false_r. cbn [andb]. now rewrite Hf, Hl.
Qed.

(** X17: when the normalized string has no high surrogate, step 4.2 agrees
    with the reading by code points: a string that reaches it with a
    bidi-R-AL code point is returned when the first and the last code point
    of the normalized sequence are in the bidi-R-AL table, and refused with
    BidiEdgePlacement otherwise. *)
Theorem bidi_edge_check_without_surrogates (input n : js_string) (opts : options) :
  input <> [] ->
  normalized_input normalize_NFKC tables input = Ok n ->
  Forall (fun u => is_high_surrogate u = false) n ->
  existsb (prohibited_characters tables) (toCodePoints n) = false ->
  allowUnassigned_not_true opts
  && existsb (unassigned_code_points tables) (toCodePoints n) = false ->
  existsb (bidirectional_r_al tables) (toCodePoints n) = true ->
  existsb (bidirectional_l tables) (toCodePoints n) = false ->
  saslprep normalize_NFKC tables (JsString input) opts =
  if first_last_code_points_RAL tables (toCodePoints n)
  then Ok n else Throw BidiEdgePlacement.
Proof.
  intros Hne Hn Hbmp Hp Hu Hral Hl.
  rewrite (bidi_edge_check_on_units normalize_NFKC tables opts input n Hne Hn Hp Hu Hral Hl).
  rewrite toCodePoints_decode, (decode_without_high_surrogates n Hbmp).
  reflexivity.
Qed.

(** X18: every exception has its cause in the normalized string, and every
    cause its exception: on a non-empty string with normalized string [n],
    saslprep throws [e] exactly when [n] shows the cause of [e]
    (ProhibitedCharacter before UnassignedCodePoint before
    BidiMixedDirection before BidiEdgePlacement; the TypeError for an empty
    [n]). *)
Theorem saslprep_error_cause (x n : js_string) (opts : options) (e : error) :
  x <> [] ->
  normalized_input normalize_NFKC tables x = Ok n ->
  (saslprep normalize_NFKC tables (JsString x) opts = Throw e
   <-> error_cause tables opts n e = true).
Proof.
  intros Hne Hn. rewrite saslprep_nonempty by exact Hne.
  rewrite Hn. cbn [bind]. apply checks_error_cause.
Qed.

End OutcomeTheorems.

(** ** Worked examples for the decoder and the outcomes *)

(** U+1F600 followed by "a". *)
Lemma toCodePoints_round_trip_witness :
  utf16 [0xD83D; 0xDE00; 0x61]
  /\ toCodePoints [0xD83D; 0xDE00; 0x61] = [0x1F600; 0x61]
  /\ fromCodePoint (toCodePoints [0xD83D; 0xDE00; 0x61]) = Ok [0xD83D; 0xDE00; 0x61].
Proof.
  assert (Hs : utf16 [0xD83D; 0xDE00; 0x61]) by code_units.
  split; [exact Hs|]. split; [reflexivity|].
  exact (proj1 (toCodePoints_round_trip _ Hs)).
Defined.

Lemma toCodePoints_in_range_witness :
  utf16 [0xDBFF; 0xDFFF; 0xDFFF]
  /\ Forall (fun c => 0 <= c <= 0x10FFFF) (toCodePoints [0xDBFF; 0xDFFF; 0xDFFF]).
Proof.
  assert (Hs : utf16 [0xDBFF; 0xDFFF; 0xDFFF]) by code_units.
  split; [exact Hs|]. exact (toCodePoints_in_range _ Hs).
Defined.

(** "user" *)
Lemma toCodePoints_without_high_surrogates_witness :
  toCodePoints [0x75; 0x73; 0x65; 0x72] = [0x75; 0x73; 0x65; 0x72].
Proof.
  apply toCodePoints_without_high_surrogates. repeat constructor.
Defined.

Lemma toCodePoints_fromCodePoint_witness :
  fromCodePoint [0x1F600; 0xDC00; 0xD83D] = Ok [0xD83D; 0xDE00; 0xDC00; 0xD83D]
  /\ toCodePoints [0xD83D; 0xDE00; 0xDC00; 0xD83D] = [0x1F600; 0xDC00; 0xD83D].
Proof.
  split; [reflexivity|].
  apply (toCodePoints_fromCodePoint [0x1F600; 0xDC00; 0xD83D]); reflexivity.
Defined.

(** A lone high surrogate at the end of the left side, "b" on the right. *)
Lemma toCodePoints_app_witness :
  boundary_pair [0x61; 0xD83D] [0x62] = false
  /\ toCodePoints ([0x61; 0xD83D] ++ [0x62])
     = toCodePoints [0x61; 0xD83D] ++ toCodePoints [0x62].
Proof.
  split; [reflexivity|]. apply toCodePoints_app. reflexivity.
Defined.

(** Alef, "1", alef is returned: alef at both ends. *)
Lemma saslprep_success_output_witness :
  saslprep nfkc_examples example_tables (JsString [0x5D0; 0x31; 0x5D0]) default_options
  = Ok [0x5D0; 0x31; 0x5D0]
  /\ existsb (prohibited_characters example_tables) (toCodePoints [0x5D0; 0x31; 0x5D0])
     = false
  /\ first_last_units_RAL example_tables [0x5D0; 0x31; 0x5D0] = true.
Proof.
  split; [reflexivity|].
  destruct (saslprep_success_output nfkc_examples example_tables
              [0x5D0; 0x31; 0x5D0] [0x5D0; 0x31; 0x5D0] default_options eq_refl)
    as [Hp [_ [_ He]]].
  split; [exact Hp | apply He; reflexivity].
Defined.

Lemma saslprep_empty_output_witness :
  saslprep nfkc_examples example_tables (JsString [0x61; 0xA0; 0x62]) default_options
  = Ok [0x61; 0x20; 0x62]
  /\ ([0x61; 0x20; 0x62] = [] <-> [0x61; 0xA0; 0x62] = []).
Proof.
  split; [reflexivity|].
  exact (saslprep_empty_output nfkc_examples example_tables
           [0x61; 0xA0; 0x62] [0x61; 0x20; 0x62] default_options eq_refl).
Defined.

(** Alef followed by "1": the last code point is not right-to-left. *)
Lemma bidi_edge_check_without_surrogates_witness :
  first_last_code_points_RAL example_tables (toCodePoints [0x5D0; 0x31]) = false
  /\ saslprep nfkc_examples example_tables (JsString [0x5D0; 0x31]) default_options
     = Throw BidiEdgePlacement.
Proof.
  split; [reflexivity|].
  apply (bidi_edge_check_without_surrogates nfkc_examples example_tables
           [0x5D0; 0x31] [0x5D0; 0x31] default_options);
    try reflexivity; [discriminate | repeat constructor].
Defined.

(** Alef followed by "z": mixed directions. *)
Lemma saslprep_error_cause_witness :
  error_cause example_tables default_options [0x5D0; 0x7A] BidiMixedDirection = true
  /\ saslprep nfkc_examples example_tables (JsString [0x5D0; 0x7A]) default_options
     = Throw BidiMixedDirection.
Proof.
  split; [reflexivity|].
  apply (saslprep_error_cause nfkc_examples example_tables [0x5D0; 0x7A] [0x5D0; 0x7A]
           default_options BidiMixedDirection); [discriminate | reflexivity | reflexivity].
Defined.

(** ** The mapped sequence and the returned string *)



(** Why the surrogates matter: with the soft hyphen and U+10000 in the
    map-to-nothing table, the string 0xD800 U+00AD 0xDC00 U+10000 is mapped
    to the two lone surrogates, which NFKC leaves alone; encoded side by
    side they are U+10000 again, in the returned string. *)
Lemma mapped_to_nothing_rejoined :
  mapped_input tables_U10000_to_nothing [0xD800; 0xAD; 0xDC00; 0xD800; 0xDC00]
  = [0xD800; 0xDC00]
  /\ no_surrogate_pair [0xD800; 0xDC00] = false
  /\ saslprep nfkc_examples tables_U10000_to_nothing
       (JsString [0xD800; 0xAD; 0xDC00; 0xD800; 0xDC00]) default_options
     = Ok [0xD800; 0xDC00]
  /\ toCodePoints [0xD800; 0xDC00] = [0x10000].
Proof. repeat split; vm_compute; reflexivity. Qed.

(** ** The limit on the number of arguments *)

Section EngineLimit.

Variable max_arguments : nat.
Variable normalize_NFKC : js_string -> js_string.
Variable tables : code_points.

(** In an engine with a limit, saslprep throws the RangeError on the
    non-empty strings whose mapped sequence is longer than the limit, and
    is the saslprep without a limit on all others. *)
Lemma saslprep_engine_limit (s : js_string) (opts : options) :
  saslprep_engine max_arguments normalize_NFKC tables (JsString s) opts =
  if negb (length s =? 0)%nat && (max_arguments <? length (mapped_input tables s))%nat
  then Throw RangeError
  else saslprep normalize_NFKC tables (JsString s) opts.
Proof.
  unfold saslprep_engine, saslprep, fromCodePoint_apply, mapped_input,
    mapping2nothing_step, mapping2space_step.
  destruct (length s =? 0)%nat; [reflexivity|]. cbn [negb andb].
  destruct (max_arguments <? _)%nat; reflexivity.
Qed.

Lemma mapped_input_plain (x : js_string) :
  forallb (plain_code_point tables) (toCodePoints x) = true ->
  mapped_input tables x = toCodePoints x.
Proof.
  intros Hplain. unfold mapped_input. apply mapping_fixed.
  - apply Forall_forall. intros c Hc.
    apply (proj1 (forallb_forall _ _) Hplain), plain_code_point_inv in Hc. tauto.
  - apply Forall_forall. intros c Hc Hs.
    apply (proj1 (forallb_forall _ _) Hplain), plain_code_point_inv in Hc.
    destruct Hc as [_ [Hc _]]. congruence.
Qed.

(** X13: in an engine that takes at most [max_arguments] arguments,
    saslprep on a string throws a RangeError exactly when the string is not
    empty and its mapped sequence has more than [max_arguments] entries:
    never for a value that is no code point; and it never throws the
    TypeError for a non-string input. *)
Theorem saslprep_engine_RangeError_iff (x : js_string) (opts : options) :
  utf16 x ->
  (saslprep_engine max_arguments normalize_NFKC tables (JsString x) opts
   = Throw RangeError
   <-> x <> [] /\ (max_arguments < length (mapped_input tables x))%nat)
  /\ saslprep_engine max_arguments normalize_NFKC tables (JsString x) opts
     <> Throw InvalidInputType.
Proof.
  intros Hx. rewrite saslprep_engine_limit.
  destruct (saslprep_encodes_code_points normalize_NFKC tables x opts Hx)
    as [Hrange Htype].
  destruct x as [|u r].
  - cbn [length Nat.eqb negb andb]. split; [|exact Htype].
    split; [intros H; contradiction | intros [H _]; congruence].
  - cbn [length Nat.eqb negb andb].
    destruct (max_arguments <? length (mapped_input tables (u :: r)))%nat eqn:Hlim.
    + apply Nat.ltb_lt in Hlim. split; [|discriminate].
      split; [intros _; split; [discriminate | exact Hlim] | reflexivity].
    + apply Nat.ltb_ge in Hlim. split; [|exact Htype].
      split; [intros H; contradiction | intros [_ H]; lia].
Qed.

(** X16: a string that NFKC leaves unchanged and whose code points are
    outside the map-to-nothing, non-ASCII-space, prohibited, unassigned and
    bidi-R-AL tables is returned as it is when it has at most
    [max_arguments] code points, and refused with a RangeError when it has
    more. *)
Theorem saslprep_engine_plain_string (x : js_string) (opts : options) :
  utf16 x ->
  normalize_NFKC x = x ->
  forallb (plain_code_point tables) (toCodePoints x) = true ->
  saslprep_engine max_arguments normalize_NFKC tables (JsString x) opts =
  if (max_arguments <? length (toCodePoints x))%nat then Throw RangeError else Ok x.
Proof.
  intros Hx Hfix Hplain. rewrite saslprep_engine_limit.
  rewrite (mapped_input_plain x Hplain).
  rewrite (saslprep_plain_unlimited normalize_NFKC tables x opts Hx Hfix Hplain).
  destruct x as [|u r]; [reflexivity|].
  cbn [length Nat.eqb negb andb]. reflexivity.
Qed.

End EngineLimit.

(** "abc" with a limit of two arguments. *)
Lemma saslprep_engine_RangeError_iff_witness :
  utf16 [0x61; 0x62; 0x63]
  /\ saslprep_engine 2 nfkc_examples example_tables (JsString [0x61; 0x62; 0x63])
       default_options
     = Throw RangeError.
Proof.
  assert (Hs : utf16 [0x61; 0x62; 0x63]) by code_units.
  split; [exact Hs|].
  apply (proj1 (saslprep_engine_RangeError_iff 2 nfkc_examples example_tables
                  [0x61; 0x62; 0x63] default_options Hs)).
  split; [discriminate | vm_compute; lia].
Defined.

(** "user" with a limit of four arguments is returned, with a limit of
    three it is refused. *)
Lemma saslprep_engine_plain_string_witness :
  saslprep_engine 4 nfkc_examples example_tables (JsString [0x75; 0x73; 0x65; 0x72])
    default_options
  = Ok [0x75; 0x73; 0x65; 0x72]
  /\ saslprep_engine 3 nfkc_examples example_tables (JsString [0x75; 0x73; 0x65; 0x72])
       default_options
     = Throw RangeError.
Proof.
  split.
  - apply (saslprep_engine_plain_string 4 nfkc_examples example_tables
             [0x75; 0x73; 0x65; 0x72] default_options);
      [code_units | reflexivity | reflexivity].
  - apply (saslprep_engine_plain_string 3 nfkc_examples example_tables
             [0x75; 0x73; 0x65; 0x72] default_options);
      [code_units | reflexivity | reflexivity].
Defined.
